(** * Susceptibility-tensor calculator (tensor_calc.py): model and properties

    The Python program reads an ORCA output file, collects the 3x3
    susceptibility tensor printed for each temperature, converts its units,
    removes the isotropic part and derives axiality and rhombicity from the
    eigenvalues of the traceless tensor.

    Conventions of the model.
    - Python floats and numpy float64 values are idealised as real numbers
      ([R]): no rounding, no NaN or infinity among the values of arrays.
      Python's float division raises [ZeroDivisionError] on a zero divisor;
      numpy's scalar division does not raise, so its result lives in
      [np_float] (a real, an infinity or a NaN).
    - Exceptions are values of [exn]; a computation that may raise returns
      [result A = exn + A] and is sequenced with [x <- c ;; k].
    - A numpy 2-D array is the list of its rows.
    - A Python dict is an association list in insertion order; assignment to
      an existing key replaces the value where the key already sits.
    - [float] (the Python builtin) and [np.linalg.eigh] (LAPACK) are not code
      of the program: they are parameters of the model. [float] gives a real
      or refuses the token (tokens it would read as an infinity or a NaN
      have no counterpart here); [eigh] is total on 3x3 arrays. *)

From Stdlib Require Import Reals Lra List String Ascii Bool Arith Lia Permutation ZArith.
Import ListNotations.

(** ** Exceptions and the error monad *)

Inductive exn : Set :=
| IndexError
| ValueError
| TypeError
| ZeroDivisionError.

Definition result (A : Type) : Type := (exn + A)%type.

Definition raise {A : Type} (e : exn) : result A := inl e.
Definition ret {A : Type} (a : A) : result A := inr a.

Definition bind {A B : Type} (c : result A) (k : A -> result B) : result B :=
  match c with
  | inl e => inl e
  | inr a => k a
  end.

Notation "x <- c ;; k" := (bind c (fun x => k))
  (at level 61, c at next level, right associativity).

(** [[f(x) for x in l]]: elements are evaluated left to right and the first
    exception aborts the comprehension. *)
Fixpoint mapM {A B : Type} (f : A -> result B) (l : list A) : result (list B) :=
  match l with
  | [] => ret []
  | x :: l' => y <- f x ;; ys <- mapM f l' ;; ret (y :: ys)
  end.

(** ** Python strings *)

Module Py.

(** [needle in s] on strings. *)
Fixpoint contains (needle s : string) : bool :=
  prefix needle s ||
  match s with
  | EmptyString => false
  | String _ s' => contains needle s'
  end.

(** The ASCII characters [str.split()] treats as separators: tab, line
    feed, vertical tab, form feed, carriage return, the four separators
    28..31 and the space. *)
Definition is_space (c : ascii) : bool :=
  let n := nat_of_ascii c in
  (((9 <=? n) && (n <=? 13)) || ((28 <=? n) && (n <=? 32)))%nat.

(** [split_from s tok]: [tok] is the token being read, if any. *)
Fixpoint split_from (s : string) (tok : option string) : list string :=
  match s with
  | EmptyString =>
      match tok with
      | Some t => [t]
      | None => []
      end
  | String c s' =>
      if is_space c then
        match tok with
        | Some t => t :: split_from s' None
        | None => split_from s' None
        end
      else
        split_from s' (Some (match tok with
                             | Some t => (t ++ String c EmptyString)%string
                             | None => String c EmptyString
                             end))
  end.

(** [s.split()]. *)
Definition split (s : string) : list string := split_from s None.

(** [l[-1]]. *)
Fixpoint last_item {A : Type} (l : list A) : result A :=
  match l with
  | [] => raise IndexError
  | [x] => ret x
  | _ :: l' => last_item l'
  end.

(** [l[i]] for a non-negative index. *)
Definition getitem {A : Type} (l : list A) (i : nat) : result A :=
  match nth_error l i with
  | Some x => ret x
  | None => raise IndexError
  end.

End Py.

(** ** numpy arrays *)

Open Scope R_scope.

Module Np.

(** A 2-D array of floats, row by row. *)
Definition ndarray : Type := list (list R).

Definition row_length (rows : list (list R)) : nat :=
  match rows with
  | [] => 0%nat
  | r :: _ => List.length r
  end.

(** [np.array(rows)] on a list of lists of floats. Rows of different
    lengths are rejected (ValueError, inhomogeneous shape), as numpy does from
    version 1.24 on; no property below rests on that case. *)
Definition array (rows : list (list R)) : result ndarray :=
  if forallb (fun r => (List.length r =? row_length rows)%nat) rows
  then ret rows
  else raise ValueError.

(** [a * f] for a Python float [f]. *)
Definition scale (a : ndarray) (f : R) : ndarray :=
  map (map (fun x => x * f)) a.

(** [a / f], entry by entry. *)
Definition unscale (a : ndarray) (f : R) : ndarray :=
  map (map (fun x => x / f)) a.

(** The diagonal [a[i][i], a[i+1][i+1], ...] of the rows [a], whose first
    row has index [i]. *)
Fixpoint diagonal_from (i : nat) (a : ndarray) : list R :=
  match a with
  | [] => []
  | row :: a' =>
      match nth_error row i with
      | Some x => x :: diagonal_from (S i) a'
      | None => []
      end
  end.

(** [np.trace(a)]. *)
Definition trace (a : ndarray) : R :=
  fold_left Rplus (diagonal_from 0 a) 0.

(** [np.eye(3) * t]. *)
Definition eye3_times (t : R) : ndarray :=
  [ [1 * t; 0 * t; 0 * t];
    [0 * t; 1 * t; 0 * t];
    [0 * t; 0 * t; 1 * t] ].

(** Broadcasting of one axis against length 3: length 3 is kept, length 1
    is repeated, anything else is a shape mismatch. *)
Definition broadcast3 {A : Type} (l : list A) : result (list A) :=
  match l with
  | [x] => ret [x; x; x]
  | [_; _; _] => ret l
  | _ => raise ValueError
  end.

Fixpoint zip_with {A B C : Type} (f : A -> B -> C)
         (l : list A) (l' : list B) : list C :=
  match l, l' with
  | x :: t, y :: t' => f x y :: zip_with f t t'
  | _, _ => []
  end.

(** [a - b] for [b] of shape (3, 3). *)
Definition sub33 (a b : ndarray) : result ndarray :=
  rows <- broadcast3 a ;;
  rows' <- mapM broadcast3 rows ;;
  ret (zip_with (zip_with Rminus) rows' b).

(** Stable insertion of an (index, key) pair into a list sorted by key. *)
Fixpoint insert_key (x : nat * R) (l : list (nat * R)) : list (nat * R) :=
  match l with
  | [] => [x]
  | y :: l' =>
      if Rlt_dec (snd x) (snd y) then x :: l else y :: insert_key x l'
  end.

Definition sort_keys (l : list (nat * R)) : list (nat * R) :=
  fold_left (fun acc x => insert_key x acc) l [].

(** [np.argsort(keys)]: the indices of [keys] in ascending order of key
    (insertion sort, as numpy runs on short arrays). *)
Definition argsort (keys : list R) : list nat :=
  map fst (sort_keys (combine (seq 0 (List.length keys)) keys)).

(** [a[idx]] for an index array [idx] (all indices are in range where the
    program uses it). *)
Definition take (a : list R) (idx : list nat) : list R :=
  map (fun i => nth i a 0) idx.

(** The value of a numpy float64 scalar expression that may have divided
    by zero. *)
Inductive np_float : Type :=
| Finite (r : R)
| Inf
| NaN.

(** [abs(a / b)] on float64 scalars: division by zero gives an infinity,
    zero by zero a NaN (with a warning, no exception). *)
Definition abs_div (a b : R) : np_float :=
  if Req_dec_T b 0 then
    if Req_dec_T a 0 then NaN else Inf
  else Finite (Rabs (a / b)).

(** The 3x3 array with the given entries. *)
Definition mat3 (a b c d e f g h i : R) : ndarray :=
  [ [a; b; c]; [d; e; f]; [g; h; i] ].

End Np.

(** ** Python dicts *)

Module Dict.

Section Dict.

Variables K V : Type.
Variable eq_dec : forall a b : K, {a = b} + {a <> b}.

(** Entries in insertion order. *)
Definition dict : Type := list (K * V).

(** [d[k] = v]: an existing key keeps its place and takes the new value,
    a new key goes to the end. *)
Fixpoint set (k : K) (v : V) (d : dict) : dict :=
  match d with
  | [] => [(k, v)]
  | (k', v') :: d' =>
      if eq_dec k' k then (k', v) :: d' else (k', v') :: set k v d'
  end.

(** [d.get(k)]. *)
Fixpoint get (k : K) (d : dict) : option V :=
  match d with
  | [] => None
  | (k', v') :: d' => if eq_dec k' k then Some v' else get k d'
  end.

Definition keys (d : dict) : list K := map fst d.

End Dict.

End Dict.

Arguments Dict.set {K V} eq_dec k v d.
Arguments Dict.get {K V} eq_dec k d.
Arguments Dict.keys {K V} d.

(** ** Stand-ins for the two library functions, used by the examples *)

Module Examples.

Definition digit_of (c : ascii) : option Z :=
  let n := nat_of_ascii c in
  if ((48 <=? n) && (n <=? 57))%nat then Some (Z.of_nat (n - 48)) else None.

(** Reads [digits [. digits]]: [m] is the number read so far without its
    point, [k] the number of digits after the point, [any] whether a digit
    was seen. *)
Fixpoint read_digits (s : string) (point any : bool) (m : Z) (k : nat)
  : option (Z * nat) :=
  match s with
  | EmptyString => if any then Some (m, k) else None
  | String c s' =>
      if Ascii.eqb c "."%char then
        if point then None else read_digits s' true any m k
      else
        match digit_of c with
        | Some d =>
            read_digits s' point true (10 * m + d)%Z (if point then S k else k)
        | None => None
        end
  end.

Definition decimal_parts (s : string) : option (Z * nat) :=
  match s with
  | String "-"%char s' =>
      match read_digits s' false false 0%Z 0%nat with
      | Some (m, k) => Some ((- m)%Z, k)
      | None => None
      end
  | _ => read_digits s false false 0%Z 0%nat
  end.

(** [float] on plain decimal literals such as [50.0] or [-1.25]; every
    other token is refused. *)
Definition decimal_float (s : string) : option R :=
  match decimal_parts s with
  | Some (m, k) => Some (IZR m / 10 ^ k)
  | None => None
  end.

Definition sort3 (x y z : R) : R * R * R :=
  if Rle_dec x y then
    if Rle_dec y z then (x, y, z)
    else if Rle_dec x z then (x, z, y) else (z, x, y)
  else
    if Rle_dec x z then (y, x, z)
    else if Rle_dec y z then (y, z, x) else (z, y, x).

(** An eigenvalue solver that is exact on diagonal matrices: the diagonal
    in ascending order. *)
Definition diagonal_eigh (a : Np.ndarray) : R * R * R :=
  match Np.diagonal_from 0 a with
  | [x; y; z] => sort3 x y z
  | _ => (0, 0, 0)
  end.

End Examples.

(** ** The program *)

Import Np.

Definition key_eq_dec (a b : option R) : {a = b} + {a <> b}.
Proof.
  destruct a as [x|], b as [y|].
  - destruct (Req_dec_T x y) as [E|N].
    + left. now rewrite E.
    + right. intro H. apply N. now inversion H.
  - right. discriminate.
  - right. discriminate.
  - now left.
Defined.

(** The mapping built by the extractor: temperature (or [None]) to tensor. *)
Definition tensor_dict : Type := Dict.dict (option R) ndarray.

Definition tensors_set : option R -> ndarray -> tensor_dict -> tensor_dict :=
  Dict.set key_eq_dec.

Definition tensors_get : option R -> tensor_dict -> option ndarray :=
  Dict.get key_eq_dec.

(** [a * b] with [a] a float: [None] as [b] is a TypeError. *)
Definition py_mul (a : R) (b : option R) : result R :=
  match b with
  | Some x => ret (a * x)
  | None => raise TypeError
  end.

(** [a / b] on Python floats. *)
Definition py_div (a b : R) : result R :=
  if Req_dec_T b 0 then raise ZeroDivisionError else ret (a / b).

(** [lo <= x <= hi] with [lo], [hi] floats: comparing a float with [None]
    is a TypeError. *)
Definition py_between (lo : R) (x : option R) (hi : R) : result bool :=
  match x with
  | None => raise TypeError
  | Some t =>
      ret (if Rle_dec lo t then if Rle_dec t hi then true else false
           else false)
  end.

(** What [calculate_eigenvalues] returns. *)
Record decomposition : Type := {
  traceless_tensor : ndarray;
  eigvals : list R;
  ax_method1 : R;
  rh_method1 : R;
  ax_method2 : R;
  rh_method2 : R;
  rh_rel : np_float;
  iso : R
}.

(** One tuple of the list [process_orca_file] returns. *)
Record result_record : Type := {
  r_temp : option R;
  r_traceless_tensor : ndarray;
  r_eigvals : list R;
  r_ax1 : R;
  r_rh1 : R;
  r_ax2 : R;
  r_rh2 : R;
  r_rh_rel : np_float;
  r_iso : R
}.

Section TensorCalc.

(** The builtin [float] on a token: [None] stands for its ValueError. *)
Variable float : string -> option R.

(** [np.linalg.eigh], eigenvalues only, on a 3x3 array. *)
Variable eigh : ndarray -> R * R * R.

Definition py_float (s : string) : result R :=
  match float s with
  | Some x => ret x
  | None => raise ValueError
  end.

(** *** parse_orca_output *)

(** [if "TEMPERATURE/K:" in line: current_temp = float(line.split()[-1])] *)
Definition line_temperature (line : string) (current_temp : option R)
  : result (option R) :=
  if Py.contains "TEMPERATURE/K:"%string line then
    tok <- Py.last_item (Py.split line) ;;
    t <- py_float tok ;;
    ret (Some t)
  else ret current_temp.

(** [[float(x) for x in lines[k].split()]] *)
Definition read_row (lines : list string) (k : nat) : result (list R) :=
  line <- Py.getitem lines k ;;
  mapM py_float (Py.split line).

(** The three rows after line [i], made into an array. *)
Definition read_tensor (lines : list string) (i : nat) : result ndarray :=
  tensor <- mapM (fun j => read_row lines (i + 1 + j)) [0; 1; 2]%nat ;;
  Np.array tensor.

(** The body of the loop over [enumerate(lines)]. *)
Definition scan_line (lines : list string) (i : nat) (line : string)
           (st : option R * tensor_dict) : result (option R * tensor_dict) :=
  let '(current_temp, tensors) := st in
  current_temp <- line_temperature line current_temp ;;
  if Py.contains "Tensor in molecular frame"%string line then
    tensor <- read_tensor lines i ;;
    ret (current_temp, tensors_set current_temp tensor tensors)
  else ret (current_temp, tensors).

Fixpoint scan (lines : list string) (i : nat) (rest : list string)
         (st : option R * tensor_dict) : result (option R * tensor_dict) :=
  match rest with
  | [] => ret st
  | line :: rest' =>
      st' <- scan_line lines i line st ;;
      scan lines (S i) rest' st'
  end.

(** [lines] is what [f.readlines()] gave. *)
Definition parse_orca_output (lines : list string) : result tensor_dict :=
  st <- scan lines 0 lines (None, []) ;;
  ret (snd st).

(** *** convert_chi_tensor *)

Definition conversion_factor (temperature : option R) : result R :=
  let avogadro_number := 6.02214129e23 in
  d <- py_mul avogadro_number temperature ;;
  py_div (4 * PI * 1e24) d.

Definition convert_chi_tensor (chi_tensor : ndarray) (temperature : option R)
  : result ndarray :=
  factor <- conversion_factor temperature ;;
  ret (Np.scale chi_tensor factor).

(** *** calculate_traceless_tensor *)

Definition calculate_traceless_tensor (chi_tensor : ndarray) : result ndarray :=
  let trace := Np.trace chi_tensor / 3.0 in
  Np.sub33 chi_tensor (Np.eye3_times trace).

(** *** calculate_eigenvalues *)

Definition calculate_eigenvalues (chi_tensor : ndarray) : result decomposition :=
  traceless <- calculate_traceless_tensor chi_tensor ;;
  let '(w0, w1, w2) := eigh traceless in
  let eigvals := [w0; w1; w2] in
  let idx := Np.argsort (map Rabs eigvals) in
  let eigvals := Np.take eigvals idx in
  e2 <- Py.getitem eigvals 2 ;;
  e0 <- Py.getitem eigvals 0 ;;
  e1 <- Py.getitem eigvals 1 ;;
  let ax_method1 := 3 * e2 / 2 in
  let rh_method1 := (e0 - e1) / 2 in
  let ax_method2 := e2 - ((e0 + e1) / 2) in
  let rh_method2 := e0 - e1 in
  let rh_rel := Np.abs_div (e0 - e1) e0 in
  let trace := Np.trace chi_tensor in
  let iso := (trace / 3) * 1e-30 in
  ret {| traceless_tensor := traceless;
         eigvals := eigvals;
         ax_method1 := ax_method1;
         rh_method1 := rh_method1;
         ax_method2 := ax_method2;
         rh_method2 := rh_method2;
         rh_rel := rh_rel;
         iso := iso |}.

(** *** process_orca_file *)

(** The body of the loop over [tensors.items()]. *)
Definition process_item (min_temp max_temp : R) (item : option R * ndarray)
           (results : list result_record) : result (list result_record) :=
  let '(temp, chi_tensor) := item in
  in_range <- py_between min_temp temp max_temp ;;
  if in_range : bool then
    chi_tensor_converted <- convert_chi_tensor chi_tensor temp ;;
    dec <- calculate_eigenvalues chi_tensor_converted ;;
    let ax1_m := ax_method1 dec * 1e-30 in
    let rh1_m := rh_method1 dec * 1e-30 in
    let ax2_m := ax_method2 dec * 1e-30 in
    let rh2_m := rh_method2 dec * 1e-30 in
    ret (results ++ [ {| r_temp := temp;
                         r_traceless_tensor := traceless_tensor dec;
                         r_eigvals := eigvals dec;
                         r_ax1 := ax1_m;
                         r_rh1 := rh1_m;
                         r_ax2 := ax2_m;
                         r_rh2 := rh2_m;
                         r_rh_rel := rh_rel dec;
                         r_iso := iso dec |} ])
  else ret results.

Fixpoint process_items (min_temp max_temp : R)
         (items : list (option R * ndarray)) (results : list result_record)
  : result (list result_record) :=
  match items with
  | [] => ret results
  | item :: items' =>
      results' <- process_item min_temp max_temp item results ;;
      process_items min_temp max_temp items' results'
  end.

(** [lines] is the content of the file at [file_path]. *)
Definition process_orca_file (lines : list string) (min_temp max_temp : R)
  : result (list result_record) :=
  tensors <- parse_orca_output lines ;;
  process_items min_temp max_temp tensors [].

(** *** Notions used to state the properties *)

(** The tensor blocks of the text in source order, each paired with the
    temperature that is current at its marker line. *)
Fixpoint blocks_from (lines : list string) (i : nat) (rest : list string)
         (current_temp : option R) : result (list (option R * ndarray)) :=
  match rest with
  | [] => ret []
  | line :: rest' =>
      current_temp <- line_temperature line current_temp ;;
      if Py.contains "Tensor in molecular frame"%string line then
        tensor <- read_tensor lines i ;;
        bs <- blocks_from lines (S i) rest' current_temp ;;
        ret ((current_temp, tensor) :: bs)
      else blocks_from lines (S i) rest' current_temp
  end.

Definition tensor_blocks (lines : list string)
  : result (list (option R * ndarray)) :=
  blocks_from lines 0 lines None.

(** The last block of [bs] whose temperature is [T]. *)
Fixpoint last_block (T : option R) (bs : list (option R * ndarray))
  : option ndarray :=
  match bs with
  | [] => None
  | (k, m) :: bs' =>
      match last_block T bs' with
      | Some m' => Some m'
      | None => if key_eq_dec k T then Some m else None
      end
  end.

(** Whether a tensor marker is met in [rest] before any temperature
    marker (a line carrying both markers sets the temperature first). *)
Fixpoint block_before_temperature (rest : list string) : bool :=
  match rest with
  | [] => false
  | line :: rest' =>
      if Py.contains "TEMPERATURE/K:"%string line then false
      else Py.contains "Tensor in molecular frame"%string line
           || block_before_temperature rest'
  end.

(** Determinant of a 3x3 array. *)
Definition det3 (m : ndarray) : R :=
  match m with
  | [ [a; b; c]; [d; e; f]; [g; h; i] ] =>
      a * (e * i - f * h) - b * (d * i - f * g) + c * (d * h - e * g)
  | _ => 0
  end.

(** [x * I - S], where [S] is the symmetric matrix whose lower triangle is
    that of [m]: [eigh] reads the lower triangle only. *)
Definition characteristic_matrix (m : ndarray) (x : R) : ndarray :=
  match m with
  | [ [a; _; _]; [d; e; _]; [g; h; i] ] =>
      mat3 (x - a) (- d) (- g)
           (- d) (x - e) (- h)
           (- g) (- h) (x - i)
  | _ => []
  end.

(** [w] lists the eigenvalues of the symmetric matrix read from [m], with
    multiplicity: they are the roots of its characteristic polynomial. *)
Definition is_spectrum (m : ndarray) (w : R * R * R) : Prop :=
  let '(w0, w1, w2) := w in
  forall x : R,
    det3 (characteristic_matrix m x) = (x - w0) * (x - w1) * (x - w2).

End TensorCalc.

(** ** Auxiliary notions for the proofs and the examples *)

(** Ascending order: every element is below all later ones. *)
Fixpoint ascending (l : list R) : Prop :=
  match l with
  | [] => True
  | x :: l' => (forall y, In y l' -> x <= y) /\ ascending l'
  end.

(** The decomposition computed from the traceless tensor [tl], the
    eigenvalues [l0], [l1], [l2] in their final order and the trace [tr] of
    the input. *)
Definition decomposition_of (tl : ndarray) (l0 l1 l2 tr : R) : decomposition :=
  {| traceless_tensor := tl;
     eigvals := [l0; l1; l2];
     ax_method1 := 3 * l2 / 2;
     rh_method1 := (l0 - l1) / 2;
     ax_method2 := l2 - ((l0 + l1) / 2);
     rh_method2 := l0 - l1;
     rh_rel := Np.abs_div (l0 - l1) l0;
     iso := (tr / 3) * 1e-30 |}.

(** The assignments [tensors[T] = m] for the blocks [bs], in order. *)
Definition insert_blocks (bs : list (option R * ndarray)) (d : tensor_dict)
  : tensor_dict :=
  fold_left (fun d b => tensors_set (fst b) (snd b) d) bs d.

(** The exceptions the extractor can raise. *)
Definition parse_error (e : exn) : Prop := e = IndexError \/ e = ValueError.

Module Texts.

Open Scope string_scope.

Definition nl : string := String (ascii_of_nat 10) EmptyString.

(** A temperature, then a well-formed block. *)
Definition scenario_A : list string :=
  [ "TEMPERATURE/K:   50.0" ++ nl;
    "Tensor in molecular frame" ++ nl;
    "1.0 0.0 0.0" ++ nl;
    "0.0 2.0 0.0" ++ nl;
    "0.0 0.0 3.0" ++ nl ].

(** A block whose rows have four numbers each. *)
Definition wide_rows : list string :=
  [ "TEMPERATURE/K:   50.0" ++ nl;
    "Tensor in molecular frame" ++ nl;
    "1.0 0.0 0.0 9.0" ++ nl;
    "0.0 2.0 0.0 9.0" ++ nl;
    "0.0 0.0 3.0 9.0" ++ nl ].

(** A block cut after its second row. *)
Definition truncated : list string :=
  [ "TEMPERATURE/K:   50.0" ++ nl;
    "Tensor in molecular frame" ++ nl;
    "1.0 0.0 0.0" ++ nl;
    "0.0 2.0 0.0" ++ nl ].

(** A block before any temperature line. *)
Definition untimed : list string :=
  [ "Tensor in molecular frame" ++ nl;
    "1.0 0.0 0.0" ++ nl;
    "0.0 2.0 0.0" ++ nl;
    "0.0 0.0 3.0" ++ nl;
    "TEMPERATURE/K:   50.0" ++ nl ].

(** Two blocks under one temperature, then a temperature without block. *)
Definition two_blocks : list string :=
  [ "TEMPERATURE/K:   50.0" ++ nl;
    "Tensor in molecular frame" ++ nl;
    "1.0 0.0 0.0" ++ nl;
    "0.0 2.0 0.0" ++ nl;
    "0.0 0.0 3.0" ++ nl;
    "Tensor in molecular frame" ++ nl;
    "4.0 0.0 0.0" ++ nl;
    "0.0 5.0 0.0" ++ nl;
    "0.0 0.0 6.0" ++ nl;
    "TEMPERATURE/K:   60.0" ++ nl ].

End Texts.

(** ** Sorting by key *)

Section Argsort.

Lemma insert_key_perm (x : nat * R) (l : list (nat * R)) :
  Permutation (Np.insert_key x l) (x :: l).
Proof.
  induction l as [|y l IH]; simpl.
  - apply Permutation_refl.
  - destruct (Rlt_dec (snd x) (snd y)).
    + apply Permutation_refl.
    + apply Permutation_trans with (y :: x :: l).
      * now apply perm_skip.
      * apply perm_swap.
Qed.

Lemma insert_key_ascending (x : nat * R) (l : list (nat * R)) :
  ascending (map snd l) -> ascending (map snd (Np.insert_key x l)).
Proof.
  induction l as [|y l IH]; simpl.
  - intros _. split; [intros ? []|exact I].
  - intros [Hy Hl]. destruct (Rlt_dec (snd x) (snd y)) as [Lt|Ge]; simpl.
    + split; [|split; assumption].
      intros z [<-|Hz]; [lra|]. specialize (Hy z Hz). lra.
    + split; [|now apply IH].
      intros z Hz.
      apply (Permutation_in z (Permutation_map snd (insert_key_perm x l))) in Hz.
      destruct Hz as [<-|Hz]; [lra|now apply Hy].
Qed.

Lemma sort_keys_from (l acc : list (nat * R)) :
  ascending (map snd acc) ->
  let s := fold_left (fun acc x => Np.insert_key x acc) l acc in
  Permutation s (l ++ acc) /\ ascending (map snd s).
Proof.
  revert acc. induction l as [|x l IH]; intros acc Hacc; simpl.
  - split; [apply Permutation_refl|exact Hacc].
  - destruct (IH (Np.insert_key x acc) (insert_key_ascending x acc Hacc))
      as [P S].
    split; [|exact S].
    apply (Permutation_trans P).
    apply Permutation_trans with (l ++ x :: acc).
    + apply Permutation_app_head, insert_key_perm.
    + apply Permutation_sym, Permutation_middle.
Qed.

Lemma sort_keys_spec (l : list (nat * R)) :
  Permutation (Np.sort_keys l) l /\ ascending (map snd (Np.sort_keys l)).
Proof.
  destruct (sort_keys_from l [] I) as [P S]. rewrite app_nil_r in P.
  split; assumption.
Qed.

Lemma fst_combine_seq (l : list R) (k : nat) :
  map fst (combine (seq k (List.length l)) l) = seq k (List.length l).
Proof.
  revert k. induction l as [|x l IH]; intro k; simpl; [reflexivity|].
  now rewrite IH.
Qed.

Lemma in_combine_seq (l : list R) (k i : nat) (x : R) :
  In (i, x) (combine (seq k (List.length l)) l) ->
  (k <= i)%nat /\ nth_error l (i - k) = Some x.
Proof.
  revert k. induction l as [|y l IH]; intro k; simpl; [intros []|].
  intros [E|H].
  - inversion E; subst. rewrite Nat.sub_diag. split; [lia|reflexivity].
  - destruct (IH _ H) as [Hk Hn]. split; [lia|].
    replace (i - k)%nat with (S (i - S k)) by lia. exact Hn.
Qed.

Lemma take_seq (a pre : list R) :
  map (fun i => nth i (pre ++ a) 0) (seq (List.length pre) (List.length a)) = a.
Proof.
  revert pre. induction a as [|x a IH]; intro pre; simpl; [reflexivity|].
  f_equal.
  - rewrite app_nth2 by lia. now rewrite Nat.sub_diag.
  - specialize (IH (pre ++ [x])). rewrite <- app_assoc in IH. simpl in IH.
    rewrite length_app in IH. simpl in IH.
    rewrite Nat.add_1_r in IH. exact IH.
Qed.

(** Indexing an array with the argsort of its keys sorts it by key. *)
Lemma take_argsort (key : R -> R) (a : list R) :
  let s := Np.take a (Np.argsort (map key a)) in
  Permutation s a /\ ascending (map key s).
Proof.
  unfold Np.take, Np.argsort.
  set (c := combine (seq 0 (List.length (map key a))) (map key a)).
  destruct (sort_keys_spec c) as [P S].
  split.
  - apply Permutation_trans
      with (map (fun i => nth i a 0) (map fst c)).
    + now apply Permutation_map, Permutation_map.
    + unfold c. rewrite fst_combine_seq, length_map.
      pose proof (take_seq a []) as T. simpl in T. rewrite T.
      apply Permutation_refl.
  - rewrite !map_map.
    rewrite (map_ext_in _ snd); [exact S|].
    intros [i x] Hin. simpl.
    apply (Permutation_in _ P) in Hin. unfold c in Hin.
    apply in_combine_seq in Hin. destruct Hin as [_ Hn].
    rewrite Nat.sub_0_r in Hn.
    rewrite nth_error_map in Hn.
    destruct (nth_error a i) as [y|] eqn:E; [|discriminate].
    simpl in Hn. inversion Hn; subst.
    now rewrite (nth_error_nth _ _ 0 E).
Qed.

End Argsort.

(** ** The calculator *)

Ltac py_eval :=
  cbv -[IZR Rdiv Rmult Rplus Rminus Ropp Rinv pow Rabs PI Rle Rlt
        Req_dec_T Rle_dec Rlt_dec].

Lemma bind_inr {A B : Type} (c : result A) (k : A -> result B) (b : B) :
  bind c k = inr b -> exists a, c = inr a /\ k a = inr b.
Proof.
  destruct c as [e|a]; simpl; [discriminate|]. intro H. now exists a.
Qed.

Lemma traceless_mat3 (a b c d e f g h i : R) :
  calculate_traceless_tensor (mat3 a b c d e f g h i) =
  inr (let t := (0 + a + e + i) / 3.0 in
       mat3 (a - 1 * t) (b - 0 * t) (c - 0 * t)
            (d - 0 * t) (e - 1 * t) (f - 0 * t)
            (g - 0 * t) (h - 0 * t) (i - 1 * t)).
Proof. reflexivity. Qed.

Lemma traceless_mat3_trace (a b c d e f g h i : R) (tl : ndarray) :
  calculate_traceless_tensor (mat3 a b c d e f g h i) = inr tl ->
  Np.trace tl = 0.
Proof.
  rewrite traceless_mat3. intro H. inversion H; subst; clear H.
  py_eval. lra.
Qed.

Lemma calculate_eigenvalues_spec (eigh : ndarray -> R * R * R)
      (chi tl : ndarray) :
  calculate_traceless_tensor chi = inr tl ->
  exists w0 w1 w2 l0 l1 l2,
    eigh tl = (w0, w1, w2) /\
    Permutation [l0; l1; l2] [w0; w1; w2] /\
    Rabs l0 <= Rabs l1 <= Rabs l2 /\
    calculate_eigenvalues eigh chi =
    inr (decomposition_of tl l0 l1 l2 (Np.trace chi)).
Proof.
  intro Htl. unfold calculate_eigenvalues. rewrite Htl. simpl bind.
  destruct (eigh tl) as [[w0 w1] w2].
  exists w0, w1, w2.
  destruct (take_argsort Rabs [w0; w1; w2]) as [P S].
  cbn [map] in P, S.
  remember (Np.take _ _) as s eqn:Heqs. clear Heqs.
  pose proof (Permutation_length P) as L.
  destruct s as [|l0 [|l1 [|l2 [|? ?]]]]; try discriminate L.
  exists l0, l1, l2. simpl in S.
  repeat split; try assumption; apply S; now left.
Qed.

Lemma calculate_eigenvalues_inv (eigh : ndarray -> R * R * R)
      (chi : ndarray) (dec : decomposition) :
  calculate_eigenvalues eigh chi = inr dec ->
  exists tl w0 w1 w2 l0 l1 l2,
    calculate_traceless_tensor chi = inr tl /\
    eigh tl = (w0, w1, w2) /\
    Permutation [l0; l1; l2] [w0; w1; w2] /\
    Rabs l0 <= Rabs l1 <= Rabs l2 /\
    dec = decomposition_of tl l0 l1 l2 (Np.trace chi).
Proof.
  intro H.
  destruct (calculate_traceless_tensor chi) as [e|tl] eqn:Htl.
  - unfold calculate_eigenvalues in H. rewrite Htl in H. discriminate H.
  - destruct (calculate_eigenvalues_spec eigh chi tl Htl)
      as (w0 & w1 & w2 & l0 & l1 & l2 & Ew & P & O & E).
    rewrite E in H. inversion H; subst.
    exists tl, w0, w1, w2, l0, l1, l2. repeat split; try assumption; apply O.
Qed.

Lemma conversion_factor_nonzero (T : R) :
  T <> 0 ->
  exists f,
    conversion_factor (Some T) = inr f /\ f <> 0 /\
    f = (4 * PI * 1e24) / (6.02214129e23 * T).
Proof.
  intro HT. unfold conversion_factor, py_mul, py_div, bind, ret, raise.
  destruct (Req_dec_T _ 0) as [E|N].
  - exfalso. apply HT. lra.
  - eexists. split; [reflexivity|]. split; [|reflexivity].
    assert (P := PI_RGT_0).
    unfold Rdiv. apply Rmult_integral_contrapositive. split; [lra|].
    apply Rinv_neq_0_compat. exact N.
Qed.

Lemma convert_nonzero (chi : ndarray) (T : R) :
  T <> 0 ->
  exists f,
    f = (4 * PI * 1e24) / (6.02214129e23 * T) /\ f <> 0 /\
    convert_chi_tensor chi (Some T) = inr (Np.scale chi f).
Proof.
  intro HT. destruct (conversion_factor_nonzero T HT) as (f & Ef & Nf & Vf).
  exists f. split; [exact Vf|]. split; [exact Nf|].
  unfold convert_chi_tensor. now rewrite Ef.
Qed.

Lemma unscale_scale (a : ndarray) (f : R) :
  f <> 0 -> Np.unscale (Np.scale a f) f = a.
Proof.
  intro Hf. unfold Np.unscale, Np.scale. rewrite map_map.
  rewrite <- (map_id a) at 2. apply map_ext. intro row.
  rewrite map_map. rewrite <- (map_id row) at 2. apply map_ext. intro x.
  field. exact Hf.
Qed.

Lemma Rsum_perm3 (l0 l1 l2 w0 w1 w2 : R) :
  Permutation [l0; l1; l2] [w0; w1; w2] -> l0 + l1 + l2 = w0 + w1 + w2.
Proof.
  intro P.
  assert (G : forall l l' : list R, Permutation l l' ->
              fold_right Rplus 0 l = fold_right Rplus 0 l').
  { induction 1; simpl; lra. }
  specialize (G _ _ P). simpl in G. lra.
Qed.

(** Listing the eigenvalues in another order lists them still. *)
Lemma spectrum_perm (m : ndarray) (w0 w1 w2 l0 l1 l2 : R) :
  Permutation [l0; l1; l2] [w0; w1; w2] ->
  is_spectrum m (w0, w1, w2) -> is_spectrum m (l0, l1, l2).
Proof.
  intros P Hw x. rewrite (Hw x).
  assert (G : forall l l' : list R, Permutation l l' ->
              fold_right (fun w acc => (x - w) * acc) 1 l =
              fold_right (fun w acc => (x - w) * acc) 1 l').
  { induction 1 as [|w l l' _ IH|w w' l|l l' l'' _ IH1 _ IH2]; simpl.
    - reflexivity.
    - now rewrite IH.
    - ring.
    - now rewrite IH1. }
  specialize (G _ _ P). simpl in G. lra.
Qed.

(** The eigenvalues of a symmetric matrix add up to its trace. *)
Lemma spectrum_sum (a b c d e f g h i w0 w1 w2 : R) :
  is_spectrum (mat3 a b c d e f g h i) (w0, w1, w2) ->
  w0 + w1 + w2 = a + e + i.
Proof.
  intro H. unfold is_spectrum, characteristic_matrix, mat3, det3 in H.
  pose proof (H 0) as H0. pose proof (H 1) as H1. pose proof (H (-1)) as H2.
  clear H. nra.
Qed.

(** C2: the traceless reduction of a 3x3 tensor returns a matrix whose trace
    is exactly zero over the reals, hence also below 1e-9 in absolute
    value. *)
Theorem traceless_trace_zero (a b c d e f g h i : R) :
  exists tl,
    calculate_traceless_tensor (mat3 a b c d e f g h i) = inr tl /\
    Np.trace tl = 0 /\
    Rabs (Np.trace tl) < 1e-9.
Proof.
  eexists. split; [apply traceless_mat3|].
  rewrite (traceless_mat3_trace a b c d e f g h i _ (traceless_mat3 a b c d e f g h i)).
  split; [reflexivity|]. rewrite Rabs_R0. lra.
Qed.

(** C3: the unit conversion raises for a temperature that is [None]
    (TypeError) or zero (ZeroDivisionError); it returns no array. *)
Theorem convert_rejects_zero_and_none (chi : ndarray) :
  convert_chi_tensor chi None = inl TypeError /\
  convert_chi_tensor chi (Some 0) = inl ZeroDivisionError /\
  forall temperature,
    temperature = None \/ temperature = Some 0 ->
    forall converted, convert_chi_tensor chi temperature <> inr converted.
Proof.
  assert (Z : convert_chi_tensor chi (Some 0) = inl ZeroDivisionError).
  { unfold convert_chi_tensor, conversion_factor, py_mul, py_div, bind, ret, raise.
    destruct (Req_dec_T _ 0) as [_|N]; [reflexivity|].
    exfalso. apply N. lra. }
  split; [reflexivity|]. split; [exact Z|].
  intros t [->| ->] converted.
  - discriminate.
  - rewrite Z. discriminate.
Qed.

(** C8: for a nonzero temperature the conversion multiplies every entry by
    the factor (4 pi 1e24) / (6.02214129e23 T), and dividing the converted
    tensor by that factor gives the tensor back. *)
Theorem convert_roundtrip (chi : ndarray) (T : R) :
  T <> 0 ->
  exists factor converted,
    factor = (4 * PI * 1e24) / (6.02214129e23 * T) /\
    convert_chi_tensor chi (Some T) = inr converted /\
    converted = Np.scale chi factor /\
    Np.unscale converted factor = chi.
Proof.
  intro HT. destruct (convert_nonzero chi T HT) as (f & Vf & Nf & Ef).
  exists f, (Np.scale chi f). split; [exact Vf|]. split; [exact Ef|].
  split; [reflexivity|]. apply unscale_scale. exact Nf.
Qed.

(** C1: for a 3x3 tensor the calculator returns a triple of eigenvalues that
    is a permutation of what [eigh] gave for the traceless tensor, in
    ascending order of absolute value; when [eigh] gave the eigenvalues of
    the traceless tensor, so is the triple returned. *)
Theorem eigenvalues_mehring_order (eigh : ndarray -> R * R * R)
        (a b c d e f g h i : R) :
  exists dec w0 w1 w2 l0 l1 l2,
    calculate_eigenvalues eigh (mat3 a b c d e f g h i) = inr dec /\
    calculate_traceless_tensor (mat3 a b c d e f g h i) =
      inr (traceless_tensor dec) /\
    eigh (traceless_tensor dec) = (w0, w1, w2) /\
    eigvals dec = [l0; l1; l2] /\
    Permutation [l0; l1; l2] [w0; w1; w2] /\
    Rabs l0 <= Rabs l1 <= Rabs l2 /\
    (is_spectrum (traceless_tensor dec) (w0, w1, w2) ->
     is_spectrum (traceless_tensor dec) (l0, l1, l2)).
Proof.
  destruct (calculate_eigenvalues_spec eigh _ _ (traceless_mat3 a b c d e f g h i))
    as (w0 & w1 & w2 & l0 & l1 & l2 & Ew & P & O & E).
  eexists. exists w0, w1, w2, l0, l1, l2. split; [exact E|].
  split; [reflexivity|]. split; [exact Ew|]. split; [reflexivity|].
  split; [exact P|]. split; [exact O|].
  exact (spectrum_perm _ w0 w1 w2 l0 l1 l2 P).
Qed.

(** C9: when the first two eigenvalues in Mehring order are equal, both
    rhombicities are exactly zero. *)
Theorem degenerate_rhombicity_zero (eigh : ndarray -> R * R * R)
        (chi : ndarray) (dec : decomposition) (l0 l1 l2 : R) :
  calculate_eigenvalues eigh chi = inr dec ->
  eigvals dec = [l0; l1; l2] ->
  l0 = l1 ->
  rh_method1 dec = (l0 - l1) / 2 /\ rh_method1 dec = 0 /\
  rh_method2 dec = l0 - l1 /\ rh_method2 dec = 0.
Proof.
  intros H Hl E.
  destruct (calculate_eigenvalues_inv eigh chi dec H)
    as (tl & w0 & w1 & w2 & m0 & m1 & m2 & _ & _ & _ & _ & ->).
  simpl in *. inversion Hl; subst. repeat split; lra.
Qed.

(** C10: for a 3x3 tensor, rhombicity 2 is twice rhombicity 1; and when
    [eigh] returned the eigenvalues of the traceless tensor, these add up to
    zero and the two axialities coincide. *)
Theorem axiality_conventions_agree (eigh : ndarray -> R * R * R)
        (a b c d e f g h i : R) (dec : decomposition) :
  calculate_eigenvalues eigh (mat3 a b c d e f g h i) = inr dec ->
  exists l0 l1 l2,
    eigvals dec = [l0; l1; l2] /\
    ax_method1 dec = 1.5 * l2 /\
    ax_method2 dec = l2 - (l0 + l1) / 2 /\
    rh_method2 dec = 2 * rh_method1 dec /\
    (is_spectrum (traceless_tensor dec) (eigh (traceless_tensor dec)) ->
     l0 + l1 + l2 = 0 /\ ax_method1 dec = ax_method2 dec).
Proof.
  intro H.
  destruct (calculate_eigenvalues_inv eigh _ dec H)
    as (tl & w0 & w1 & w2 & l0 & l1 & l2 & Htl & Ew & P & _ & ->).
  exists l0, l1, l2. simpl.
  split; [reflexivity|]. split; [lra|]. split; [reflexivity|]. split; [lra|].
  rewrite Ew. intro Sp.
  pose proof (traceless_mat3_trace a b c d e f g h i tl Htl) as T0.
  rewrite traceless_mat3 in Htl. inversion Htl; subst tl; clear Htl.
  apply spectrum_sum in Sp.
  apply Rsum_perm3 in P.
  assert (S0 : l0 + l1 + l2 = 0).
  { rewrite P, Sp. revert T0. py_eval. lra. }
  split; [exact S0|lra].
Qed.

(** ** The dict *)

Section DictFacts.

Lemma get_set_same (k : option R) (v : ndarray) (d : tensor_dict) :
  tensors_get k (tensors_set k v d) = Some v.
Proof.
  induction d as [|[k' v'] d IH]; simpl.
  - destruct (key_eq_dec k k); [reflexivity|contradiction].
  - destruct (key_eq_dec k' k) as [E|N]; simpl.
    + destruct (key_eq_dec k' k); [reflexivity|contradiction].
    + destruct (key_eq_dec k' k); [contradiction|exact IH].
Qed.

Lemma get_set_other (k k' : option R) (v : ndarray) (d : tensor_dict) :
  k' <> k -> tensors_get k (tensors_set k' v d) = tensors_get k d.
Proof.
  intro N. induction d as [|[k0 v0] d IH]; simpl.
  - destruct (key_eq_dec k' k); [contradiction|reflexivity].
  - destruct (key_eq_dec k0 k') as [E|N0]; simpl.
    + subst k0. destruct (key_eq_dec k' k); [contradiction|reflexivity].
    + destruct (key_eq_dec k0 k); [reflexivity|exact IH].
Qed.

Lemma keys_set (k : option R) (v : ndarray) (d : tensor_dict) (x : option R) :
  In x (Dict.keys (tensors_set k v d)) <-> x = k \/ In x (Dict.keys d).
Proof.
  induction d as [|[k0 v0] d IH]; simpl.
  - intuition.
  - destruct (key_eq_dec k0 k) as [E|N]; simpl.
    + subst k0. intuition.
    + rewrite IH. intuition.
Qed.

Lemma nodup_set (k : option R) (v : ndarray) (d : tensor_dict) :
  NoDup (Dict.keys d) -> NoDup (Dict.keys (tensors_set k v d)).
Proof.
  induction d as [|[k0 v0] d IH]; simpl; intro ND.
  - constructor; [intros []|constructor].
  - inversion ND as [|? ? Hnotin ND']; subst.
    destruct (key_eq_dec k0 k) as [E|N]; simpl.
    + constructor; assumption.
    + constructor; [|now apply IH].
      intro Hin. apply keys_set in Hin. destruct Hin as [E|Hin].
      * now apply N.
      * now apply Hnotin.
Qed.

Lemma get_insert_blocks (T : option R) (bs : list (option R * ndarray))
      (d : tensor_dict) :
  tensors_get T (insert_blocks bs d) =
  match last_block T bs with
  | Some m => Some m
  | None => tensors_get T d
  end.
Proof.
  revert d. induction bs as [|[k m] bs IH]; intro d; simpl; [reflexivity|].
  unfold insert_blocks in *. simpl. rewrite IH.
  destruct (last_block T bs); [reflexivity|].
  destruct (key_eq_dec k T) as [E|N].
  - subst k. apply get_set_same.
  - now apply get_set_other.
Qed.

Lemma keys_insert_blocks (bs : list (option R * ndarray)) (d : tensor_dict)
      (x : option R) :
  In x (Dict.keys (insert_blocks bs d)) <->
  In x (map fst bs) \/ In x (Dict.keys d).
Proof.
  revert d. induction bs as [|[k m] bs IH]; intro d; simpl.
  - intuition.
  - unfold insert_blocks in *. simpl. rewrite IH, keys_set. intuition.
Qed.

Lemma nodup_insert_blocks (bs : list (option R * ndarray)) (d : tensor_dict) :
  NoDup (Dict.keys d) -> NoDup (Dict.keys (insert_blocks bs d)).
Proof.
  revert d. induction bs as [|[k m] bs IH]; intros d ND; simpl; [exact ND|].
  unfold insert_blocks in *. simpl. apply IH, nodup_set, ND.
Qed.

Lemma last_block_app (T : option R) (l1 l2 : list (option R * ndarray)) :
  last_block T (l1 ++ l2) =
  match last_block T l2 with
  | Some m => Some m
  | None => last_block T l1
  end.
Proof.
  induction l1 as [|[k m] l1 IH]; simpl.
  - now destruct (last_block T l2).
  - rewrite IH. now destruct (last_block T l2).
Qed.

Lemma last_block_absent (T : option R) (bs : list (option R * ndarray)) :
  ~ In T (map fst bs) -> last_block T bs = None.
Proof.
  induction bs as [|[k m] bs IH]; simpl; intro H; [reflexivity|].
  rewrite IH by tauto.
  destruct (key_eq_dec k T); [|reflexivity]. exfalso. apply H. now left.
Qed.

End DictFacts.

(** ** The extractor *)

Section Extractor.

Variable float : string -> option R.

Lemma line_temperature_unmarked (line : string) (cur : option R) :
  Py.contains "TEMPERATURE/K:" line = false ->
  line_temperature float line cur = inr cur.
Proof. unfold line_temperature. now intros ->. Qed.

Lemma line_temperature_some (line : string) (t : R) (c : option R) :
  line_temperature float line (Some t) = inr c -> c <> None.
Proof.
  unfold line_temperature.
  destruct (Py.contains _ line).
  - intro H. apply bind_inr in H. destruct H as (tok & _ & H).
    apply bind_inr in H. destruct H as (x & _ & H).
    inversion H. discriminate.
  - intro H. inversion H. discriminate.
Qed.

Lemma line_temperature_marked (line : string) (cur c : option R) :
  Py.contains "TEMPERATURE/K:" line = true ->
  line_temperature float line cur = inr c -> c <> None.
Proof.
  unfold line_temperature. intros ->.
  intro H. apply bind_inr in H. destruct H as (tok & _ & H).
  apply bind_inr in H. destruct H as (x & _ & H).
  inversion H. discriminate.
Qed.

(** The scan is the insertion, in source order, of the blocks it meets. *)
Lemma scan_blocks (lines rest : list string) (i : nat) (cur : option R)
      (d : tensor_dict) (st : option R * tensor_dict) :
  scan float lines i rest (cur, d) = inr st ->
  exists bs,
    blocks_from float lines i rest cur = inr bs /\
    snd st = insert_blocks bs d.
Proof.
  revert i cur d. induction rest as [|line rest IH]; intros i cur d; simpl.
  - intro H. inversion H. now exists [].
  - intro H. apply bind_inr in H. destruct H as ([c d'] & Hstep & Hscan).
    unfold scan_line in Hstep.
    apply bind_inr in Hstep. destruct Hstep as (c' & Hc & Hstep).
    rewrite Hc. simpl bind.
    destruct (Py.contains "Tensor in molecular frame" line).
    + apply bind_inr in Hstep. destruct Hstep as (m & Hm & Hstep).
      inversion Hstep; subst c d'. rewrite Hm. simpl bind.
      destruct (IH _ _ _ Hscan) as (bs & Hbs & Hd).
      rewrite Hbs. simpl. exists ((c', m) :: bs). split; [reflexivity|].
      exact Hd.
    + inversion Hstep; subst c d'.
      destruct (IH _ _ _ Hscan) as (bs & Hbs & Hd).
      exists bs. split; assumption.
Qed.

Lemma parse_blocks (lines : list string) (d : tensor_dict) :
  parse_orca_output float lines = inr d ->
  exists bs,
    tensor_blocks float lines = inr bs /\ d = insert_blocks bs [].
Proof.
  unfold parse_orca_output. intro H.
  apply bind_inr in H. destruct H as (st & Hscan & H).
  inversion H; subst d. now apply scan_blocks.
Qed.

(** After a temperature was read, no block is keyed [None]. *)
Lemma blocks_after_temperature (lines rest : list string) (i : nat) (t : R)
      (bs : list (option R * ndarray)) :
  blocks_from float lines i rest (Some t) = inr bs ->
  ~ In None (map fst bs).
Proof.
  revert i t bs. induction rest as [|line rest IH]; intros i t bs; simpl.
  - intro H. inversion H. intros [].
  - intro H. apply bind_inr in H. destruct H as (c & Hc & H).
    pose proof (line_temperature_some line t c Hc) as Nc.
    destruct c as [t'|]; [|contradiction].
    destruct (Py.contains "Tensor in molecular frame" line).
    + apply bind_inr in H. destruct H as (m & _ & H).
      apply bind_inr in H. destruct H as (bs' & Hbs & H).
      inversion H; subst bs. simpl. intros [E|Hin]; [discriminate|].
      exact (IH _ _ _ Hbs Hin).
    + exact (IH _ _ _ H).
Qed.

Lemma blocks_untimed (lines rest : list string) (i : nat)
      (bs : list (option R * ndarray)) :
  blocks_from float lines i rest None = inr bs ->
  block_before_temperature rest = false ->
  ~ In None (map fst bs).
Proof.
  revert i bs. induction rest as [|line rest IH]; intros i bs; simpl.
  - intro H. inversion H. intros _ [].
  - intros H B. apply bind_inr in H. destruct H as (c & Hc & H).
    destruct (Py.contains "TEMPERATURE/K:" line) eqn:M.
    + pose proof (line_temperature_marked line None c M Hc) as Nc.
      destruct c as [t|]; [|contradiction].
      destruct (Py.contains "Tensor in molecular frame" line).
      * apply bind_inr in H. destruct H as (m & _ & H).
        apply bind_inr in H. destruct H as (bs' & Hbs & H).
        inversion H; subst bs. simpl. intros [E|Hin]; [discriminate|].
        exact (blocks_after_temperature _ _ _ _ _ Hbs Hin).
      * exact (blocks_after_temperature _ _ _ _ _ H).
    + rewrite (line_temperature_unmarked line None M) in Hc.
      inversion Hc; subst c.
      apply orb_false_iff in B. destruct B as [B1 B2].
      rewrite B1 in H. exact (IH _ _ H B2).
Qed.

(** Over lines without temperature marker the current temperature stays,
    and every block met is keyed by it. *)
Lemma blocks_prefix (lines pre rest : list string) (i : nat)
      (cur : option R) (bs : list (option R * ndarray)) :
  (forall l, In l pre -> Py.contains "TEMPERATURE/K:" l = false) ->
  blocks_from float lines i (pre ++ rest) cur = inr bs ->
  exists bs1 bs2,
    bs = bs1 ++ bs2 /\
    blocks_from float lines (i + List.length pre) rest cur = inr bs2 /\
    forall b, In b bs1 -> fst b = cur.
Proof.
  revert i bs. induction pre as [|line pre IH]; intros i bs Hpre; simpl.
  - intro H. exists [], bs. rewrite Nat.add_0_r. repeat split; [exact H|].
    intros b [].
  - intro H. apply bind_inr in H. destruct H as (c & Hc & H).
    rewrite (line_temperature_unmarked line cur) in Hc
      by (apply Hpre; now left).
    inversion Hc; subst c.
    assert (Hpre' : forall l, In l pre ->
                              Py.contains "TEMPERATURE/K:" l = false)
      by (intros l Hl; apply Hpre; now right).
    replace (i + S (List.length pre))%nat with (S i + List.length pre)%nat
      by lia.
    destruct (Py.contains "Tensor in molecular frame" line).
    + apply bind_inr in H. destruct H as (m & _ & H).
      apply bind_inr in H. destruct H as (bs' & Hbs & H).
      inversion H; subst bs.
      destruct (IH _ _ Hpre' Hbs) as (bs1 & bs2 & E & Hb & Hk).
      exists ((cur, m) :: bs1), bs2. subst bs'. repeat split; [exact Hb|].
      intros b [<-|Hin]; [reflexivity|now apply Hk].
    + destruct (IH _ _ Hpre' H) as (bs1 & bs2 & E & Hb & Hk).
      exists bs1, bs2. repeat split; assumption.
Qed.

(** Failure of one line is failure of the scan. *)
Lemma scan_fails (lines rest : list string) (i k : nat) (line : string)
      (st : option R * tensor_dict) :
  nth_error rest k = Some line ->
  (forall st', exists e, scan_line float lines (i + k) line st' = inl e) ->
  exists e, scan float lines i rest st = inl e.
Proof.
  revert i k st. induction rest as [|l rest IH]; intros i k st Hk Hf.
  - destruct k; discriminate Hk.
  - simpl. destruct k as [|k].
    + simpl in Hk. inversion Hk; subst l.
      rewrite Nat.add_0_r in Hf. destruct (Hf st) as [e He].
      rewrite He. now exists e.
    + simpl in Hk.
      destruct (scan_line float lines i l st) as [e|st'];
        [now exists e|]. simpl.
      apply (IH (S i) k st' Hk).
      intro st''. replace (S i + k)%nat with (i + S k)%nat by lia.
      apply Hf.
Qed.

Lemma mapM_fails {A B : Type} (f : A -> result B) (l : list A) (x : A) :
  In x l -> (exists e, f x = inl e) -> exists e, mapM f l = inl e.
Proof.
  induction l as [|y l IH]; simpl; [intros []|].
  intros [->|Hin] Hx.
  - destruct Hx as [e ->]. now exists e.
  - destruct (f y) as [e|b]; [now exists e|]. simpl.
    destruct (IH Hin Hx) as [e ->]. now exists e.
Qed.

Lemma scan_line_fails (lines : list string) (i : nat) (line : string) :
  Py.contains "Tensor in molecular frame" line = true ->
  (exists e, read_tensor float lines i = inl e) ->
  forall st, exists e, scan_line float lines i line st = inl e.
Proof.
  intros M [e He] [cur d]. unfold scan_line.
  destruct (line_temperature float line cur) as [e'|c]; [now exists e'|].
  simpl. rewrite M, He. now exists e.
Qed.

Lemma read_tensor_fails (lines : list string) (i j : nat) :
  (j < 3)%nat ->
  (exists e, read_row float lines (i + 1 + j) = inl e) ->
  exists e, read_tensor float lines i = inl e.
Proof.
  intros Hj Hrow. unfold read_tensor.
  destruct (mapM_fails (fun j => read_row float lines (i + 1 + j))
                       [0; 1; 2]%nat j) as [e He].
  - simpl. lia.
  - exact Hrow.
  - rewrite He. now exists e.
Qed.

(** Only IndexError and ValueError come out of the extractor. *)
Lemma mapM_py_float_error (toks : list string) (e : exn) :
  mapM (py_float float) toks = inl e -> e = ValueError.
Proof.
  induction toks as [|t toks IH]; simpl; [discriminate|].
  unfold py_float at 1. destruct (float t); simpl.
  - destruct (mapM (py_float float) toks); simpl; [|discriminate].
    intro H. inversion H; subst. now apply IH.
  - intro H. now inversion H.
Qed.

Lemma read_row_error (lines : list string) (k : nat) (e : exn) :
  read_row float lines k = inl e -> parse_error e.
Proof.
  unfold read_row, Py.getitem.
  destruct (nth_error lines k); simpl.
  - intro H. right. now apply mapM_py_float_error in H.
  - intro H. inversion H. now left.
Qed.

Lemma read_tensor_error (lines : list string) (i : nat) (e : exn) :
  read_tensor float lines i = inl e -> parse_error e.
Proof.
  unfold read_tensor. simpl mapM.
  destruct (read_row float lines (i + 1 + 0)) eqn:E0;
    [intro H; inversion H; subst; exact (read_row_error _ _ _ E0)|].
  destruct (read_row float lines (i + 1 + 1)) eqn:E1;
    [intro H; inversion H; subst; exact (read_row_error _ _ _ E1)|].
  destruct (read_row float lines (i + 1 + 2)) eqn:E2;
    [intro H; inversion H; subst; exact (read_row_error _ _ _ E2)|].
  simpl. unfold Np.array.
  destruct (forallb _ _); [discriminate|].
  intro H. inversion H. now right.
Qed.

Lemma last_item_error {A : Type} (l : list A) (e : exn) :
  Py.last_item l = inl e -> e = IndexError.
Proof.
  induction l as [|x [|y l] IH]; simpl in *.
  - intro H. now inversion H.
  - discriminate.
  - exact IH.
Qed.

Lemma scan_line_error (lines : list string) (i : nat) (line : string)
      (st : option R * tensor_dict) (e : exn) :
  scan_line float lines i line st = inl e -> parse_error e.
Proof.
  destruct st as [cur d]. unfold scan_line, line_temperature.
  destruct (Py.contains "TEMPERATURE/K:" line).
  - destruct (Py.last_item (Py.split line)) as [e0|tok] eqn:L; simpl.
    + intro H. inversion H; subst. left. exact (last_item_error _ _ L).
    + unfold py_float. destruct (float tok); simpl.
      * destruct (Py.contains "Tensor in molecular frame" line);
          [|discriminate].
        destruct (read_tensor float lines i) eqn:T; [|discriminate].
        intro H. inversion H; subst. exact (read_tensor_error _ _ _ T).
      * intro H. inversion H. now right.
  - simpl. destruct (Py.contains "Tensor in molecular frame" line);
      [|discriminate].
    destruct (read_tensor float lines i) eqn:T; [|discriminate].
    intro H. inversion H; subst. exact (read_tensor_error _ _ _ T).
Qed.

Lemma scan_error (lines rest : list string) (i : nat)
      (st : option R * tensor_dict) (e : exn) :
  scan float lines i rest st = inl e -> parse_error e.
Proof.
  revert i st. induction rest as [|l rest IH]; intros i st; simpl.
  - discriminate.
  - destruct (scan_line float lines i l st) as [e0|st'] eqn:S; simpl.
    + intro H. inversion H; subst. exact (scan_line_error _ _ _ _ _ S).
    + apply IH.
Qed.

End Extractor.

(** ** Properties of the extractor and of the pipeline *)

(** C4 (as the code has it): when fewer than three lines follow a tensor
    marker, or one of the three lines after it holds a token that [float]
    refuses, the extractor raises (IndexError or ValueError) and returns no
    mapping. The number of tokens of a row is not checked. *)
Theorem truncated_or_non_numeric_block_fails
        (float : string -> option R) (lines : list string)
        (i : nat) (line : string) :
  nth_error lines i = Some line ->
  Py.contains "Tensor in molecular frame" line = true ->
  (List.length lines < i + 4)%nat \/
  (exists j row tok,
      (j < 3)%nat /\ nth_error lines (i + 1 + j) = Some row /\
      In tok (Py.split row) /\ float tok = None) ->
  exists e, parse_orca_output float lines = inl e /\ parse_error e.
Proof.
  intros Hi M Bad.
  assert (F : exists e, scan float lines 0 lines (None, []) = inl e).
  { apply (scan_fails float lines lines 0 i line _ Hi).
    apply scan_line_fails; [exact M|].
    destruct Bad as [Short|(j & row & tok & Hj & Hrow & Htok & Hf)].
    - apply (read_tensor_fails float lines i 2); [lia|].
      exists IndexError. unfold read_row, Py.getitem.
      replace (nth_error lines (i + 1 + 2)) with (@None string);
        [reflexivity|].
      symmetry. apply nth_error_None. lia.
    - apply (read_tensor_fails float lines i j Hj).
      unfold read_row, Py.getitem. rewrite Hrow. simpl.
      apply (mapM_fails (py_float float) (Py.split row) tok Htok).
      exists ValueError. unfold py_float. now rewrite Hf. }
  destruct F as [e He]. exists e. split.
  - unfold parse_orca_output. now rewrite He.
  - exact (scan_error float lines lines 0 _ e He).
Qed.

(** C5: a tensor marker met before any temperature marker is not refused
    for that reason: its line files the block under the key [None]; and the
    mapping returned has the key [None], which holds this block unless a
    later block, still before any temperature marker, replaced it. *)
Theorem block_before_temperature_keyed_none
        (float : string -> option R) (pre : list string) (mline : string)
        (rest : list string) (d : tensor_dict) :
  (forall l, In l pre -> Py.contains "TEMPERATURE/K:" l = false) ->
  Py.contains "TEMPERATURE/K:" mline = false ->
  Py.contains "Tensor in molecular frame" mline = true ->
  parse_orca_output float (pre ++ mline :: rest) = inr d ->
  exists m m',
    read_tensor float (pre ++ mline :: rest) (List.length pre) = inr m /\
    (forall tensors,
        scan_line float (pre ++ mline :: rest) (List.length pre) mline
                  (None, tensors)
        = inr (None, tensors_set None m tensors)) /\
    In None (Dict.keys d) /\
    tensors_get None d = Some m' /\
    (block_before_temperature rest = false -> m' = m).
Proof.
  intros Hpre Hm1 Hm2 Hparse.
  destruct (parse_blocks float _ d Hparse) as (bs & Hbs & ->).
  unfold tensor_blocks in Hbs.
  destruct (blocks_prefix float _ pre (mline :: rest) 0 None bs Hpre Hbs)
    as (bs1 & bs2 & -> & Hb2 & Hk).
  simpl in Hb2.
  rewrite (line_temperature_unmarked float mline None Hm1) in Hb2.
  simpl in Hb2. rewrite Hm2 in Hb2.
  apply bind_inr in Hb2. destruct Hb2 as (m & Hm & Hb2).
  apply bind_inr in Hb2. destruct Hb2 as (bs3 & Hb3 & Hb2).
  inversion Hb2; subst bs2; clear Hb2.
  assert (G : tensors_get None (insert_blocks (bs1 ++ (None, m) :: bs3) [])
              = Some (match last_block None bs3 with
                      | Some m' => m'
                      | None => m
                      end)).
  { rewrite get_insert_blocks, last_block_app. simpl.
    destruct (last_block None bs3); [reflexivity|].
    destruct (key_eq_dec None None); [reflexivity|contradiction]. }
  exists m. eexists. split; [exact Hm|]. split; [|split; [|split; [exact G|]]].
  - intro tensors. unfold scan_line.
    rewrite (line_temperature_unmarked float mline None Hm1).
    simpl. rewrite Hm2, Hm. reflexivity.
  - apply keys_insert_blocks. left. rewrite map_app. apply in_or_app.
    right. now left.
  - intro B. rewrite last_block_absent; [reflexivity|].
    exact (blocks_untimed float _ rest _ bs3 Hb3 B).
Qed.

(** C6: the mapping returned holds one entry per temperature under which a
    tensor block was read, and no other entry; the entry of a temperature is
    the last block read under it. In particular the second of two
    consecutive blocks under one temperature is the one kept, unless a later
    block comes under the same temperature. *)
Theorem last_block_wins (float : string -> option R) (lines : list string)
        (d : tensor_dict) :
  parse_orca_output float lines = inr d ->
  exists bs,
    tensor_blocks float lines = inr bs /\
    NoDup (Dict.keys d) /\
    (forall T, In T (Dict.keys d) <-> In T (map fst bs)) /\
    (forall T, tensors_get T d = last_block T bs) /\
    (forall before T m1 m2 after,
        bs = before ++ (T, m1) :: (T, m2) :: after ->
        ~ In T (map fst after) ->
        tensors_get T d = Some m2).
Proof.
  intro Hparse.
  destruct (parse_blocks float _ d Hparse) as (bs & Hbs & ->).
  assert (G : forall T, tensors_get T (insert_blocks bs []) = last_block T bs).
  { intro T. rewrite get_insert_blocks. now destruct (last_block T bs). }
  exists bs. split; [exact Hbs|]. split; [|split; [|split; [exact G|]]].
  - apply nodup_insert_blocks. constructor.
  - intro T. rewrite keys_insert_blocks. simpl. tauto.
  - intros before T m1 m2 after -> Hafter.
    rewrite G, last_block_app.
    change ((T, m1) :: (T, m2) :: after) with ([(T, m1); (T, m2)] ++ after).
    rewrite last_block_app, (last_block_absent T after Hafter). simpl.
    destruct (key_eq_dec T T); [reflexivity|contradiction].
Qed.

Lemma process_items_within (eigh : ndarray -> R * R * R)
      (min_temp max_temp : R)
      (items : list (option R * ndarray)) (acc results : list result_record) :
  (forall r, In r acc ->
             exists T, r_temp r = Some T /\ min_temp <= T <= max_temp) ->
  process_items eigh min_temp max_temp items acc = inr results ->
  forall r, In r results ->
            exists T, r_temp r = Some T /\ min_temp <= T <= max_temp.
Proof.
  revert acc. induction items as [|[temp chi] items IH]; intros acc Hacc; simpl.
  - intro H. inversion H; subst. exact Hacc.
  - intro H. apply bind_inr in H. destruct H as (acc' & Hitem & H).
    apply (IH acc'); [|exact H].
    clear H IH. unfold process_item in Hitem.
    apply bind_inr in Hitem. destruct Hitem as (b & Hb & Hitem).
    destruct temp as [t|]; [|discriminate Hb].
    simpl in Hb. inversion Hb; subst b; clear Hb.
    destruct (Rle_dec min_temp t) as [L|]; [|inversion Hitem; now subst].
    destruct (Rle_dec t max_temp) as [U|]; [|inversion Hitem; now subst].
    apply bind_inr in Hitem. destruct Hitem as (conv & _ & Hitem).
    apply bind_inr in Hitem. destruct Hitem as (dec & _ & Hitem).
    inversion Hitem; subst acc'; clear Hitem.
    intros r Hr. apply in_app_or in Hr. destruct Hr as [Hr|[<-|[]]].
    + now apply Hacc.
    + exists t. simpl. split; [reflexivity|split; assumption].
Qed.

(** C7: every record the pipeline returns carries a temperature within the
    inclusive bounds. *)
Theorem process_within_range (float : string -> option R)
        (eigh : ndarray -> R * R * R) (lines : list string)
        (min_temp max_temp : R) (results : list result_record) :
  process_orca_file float eigh lines min_temp max_temp = inr results ->
  forall r, In r results ->
            exists T, r_temp r = Some T /\ min_temp <= T <= max_temp.
Proof.
  unfold process_orca_file. intro H.
  apply bind_inr in H. destruct H as (tensors & _ & H).
  apply (process_items_within eigh min_temp max_temp tensors [] results);
    [intros r []|exact H].
Qed.

(** ** Worked examples *)

Ltac py_run :=
  cbv -[IZR Rdiv Rmult Rplus Rminus Ropp Rinv pow PI Rle Rlt
        Req_dec_T Rle_dec Rlt_dec Rcase_abs].

Ltac decide_reals :=
  repeat match goal with
         | |- context [Req_dec_T ?a ?b] =>
             destruct (Req_dec_T a b); [try (exfalso; lra)|try (exfalso; lra)]
         | |- context [Rcase_abs ?a] =>
             destruct (Rcase_abs a); [try (exfalso; lra)|try (exfalso; lra)]
         | |- context [Rle_dec ?a ?b] =>
             destruct (Rle_dec a b); [try (exfalso; lra)|try (exfalso; lra)]
         | |- context [Rlt_dec ?a ?b] =>
             destruct (Rlt_dec a b); [try (exfalso; lra)|try (exfalso; lra)]
         end.

Lemma degenerate_example :
  calculate_eigenvalues Examples.diagonal_eigh (mat3 1 0 0 0 1 0 0 0 4) =
  inr (decomposition_of (mat3 (-1) 0 0 0 (-1) 0 0 0 2) (-1) (-1) 2 6).
Proof.
  py_run. decide_reals. all: repeat f_equal; lra.
Qed.

Lemma diagonal_example :
  calculate_eigenvalues Examples.diagonal_eigh (mat3 1 0 0 0 2 0 0 0 3) =
  inr (decomposition_of (mat3 (-1) 0 0 0 0 0 0 0 1) 0 (-1) 1 6).
Proof.
  py_run. decide_reals. all: repeat f_equal; lra.
Qed.

Lemma diagonal_example_spectrum :
  is_spectrum (mat3 (-1) 0 0 0 0 0 0 0 1)
              (Examples.diagonal_eigh (mat3 (-1) 0 0 0 0 0 0 0 1)).
Proof.
  py_run. decide_reals. intro x. ring.
Qed.

Lemma scenario_A_parsed :
  parse_orca_output Examples.decimal_float Texts.scenario_A =
  inr [(Some 50, mat3 1 0 0 0 2 0 0 0 3)].
Proof.
  py_run. decide_reals. all: repeat f_equal; lra.
Qed.

Lemma wide_rows_parsed :
  parse_orca_output Examples.decimal_float Texts.wide_rows =
  inr [(Some 50, [ [1; 0; 0; 9]; [0; 2; 0; 9]; [0; 0; 3; 9] ])].
Proof.
  py_run. decide_reals. all: repeat f_equal; lra.
Qed.

Lemma untimed_parsed :
  parse_orca_output Examples.decimal_float Texts.untimed =
  inr [(None, mat3 1 0 0 0 2 0 0 0 3)].
Proof.
  py_run. decide_reals. all: repeat f_equal; lra.
Qed.

Lemma two_blocks_parsed :
  parse_orca_output Examples.decimal_float Texts.two_blocks =
  inr [(Some 50, mat3 4 0 0 0 5 0 0 0 6)].
Proof.
  py_run. decide_reals. all: repeat f_equal; lra.
Qed.

Lemma two_blocks_blocks :
  tensor_blocks Examples.decimal_float Texts.two_blocks =
  inr [(Some 50, mat3 1 0 0 0 2 0 0 0 3); (Some 50, mat3 4 0 0 0 5 0 0 0 6)].
Proof.
  py_run. decide_reals. all: repeat f_equal; lra.
Qed.

Lemma bind_ret {A B : Type} (a : A) (k : A -> result B) :
  bind (ret a) k = k a.
Proof. reflexivity. Qed.

(** A record is produced for every 3x3 tensor whose temperature is in range
    and not zero. *)
Lemma process_item_in_range (eigh : ndarray -> R * R * R)
      (min_temp max_temp t : R) (a b c d e f g h i : R)
      (acc : list result_record) :
  min_temp <= t <= max_temp ->
  t <> 0 ->
  exists r,
    process_item eigh min_temp max_temp (Some t, mat3 a b c d e f g h i) acc
    = inr (acc ++ [r]) /\
    r_temp r = Some t.
Proof.
  intros [L U] Ht.
  destruct (convert_nonzero (mat3 a b c d e f g h i) t Ht)
    as (factor & _ & _ & Hconv).
  destruct (calculate_eigenvalues_spec eigh _ _
              (traceless_mat3 (a * factor) (b * factor) (c * factor)
                              (d * factor) (e * factor) (f * factor)
                              (g * factor) (h * factor) (i * factor)))
    as (w0 & w1 & w2 & l0 & l1 & l2 & _ & _ & _ & E).
  change (mat3 (a * factor) (b * factor) (c * factor)
               (d * factor) (e * factor) (f * factor)
               (g * factor) (h * factor) (i * factor))
    with (Np.scale (mat3 a b c d e f g h i) factor) in E.
  unfold process_item, py_between. rewrite bind_ret.
  destruct (Rle_dec min_temp t); [|contradiction].
  destruct (Rle_dec t max_temp); [|contradiction].
  rewrite Hconv, bind_ret, E, bind_ret.
  eexists. split; reflexivity.
Qed.

Lemma scenario_A_processed :
  exists r,
    process_orca_file Examples.decimal_float Examples.diagonal_eigh
                      Texts.scenario_A 0 100 = inr [r] /\
    r_temp r = Some 50.
Proof.
  destruct (process_item_in_range Examples.diagonal_eigh 0 100 50
              1 0 0 0 2 0 0 0 3 []) as (r & E & Hr); [lra|lra|].
  exists r. split; [|exact Hr].
  unfold process_orca_file. rewrite scenario_A_parsed.
  change (bind (process_item Examples.diagonal_eigh 0 100
                             (Some 50, mat3 1 0 0 0 2 0 0 0 3) [])
               (fun results' => ret results') = inr [r]).
  rewrite E. reflexivity.
Qed.

(** The claim C4 as written fails on a block whose rows hold four numbers
    each: the marker line is followed by three rows of four numeric tokens,
    and the extractor returns a mapping with a 3x4 array for that block
    instead of raising. *)
Lemma wide_rows_accepted :
  Py.contains "Tensor in molecular frame" (nth 1 Texts.wide_rows EmptyString)
  = true /\
  List.length (Py.split (nth 2 Texts.wide_rows EmptyString)) = 4%nat /\
  parse_orca_output Examples.decimal_float Texts.wide_rows =
  inr [(Some 50, [ [1; 0; 0; 9]; [0; 2; 0; 9]; [0; 0; 3; 9] ])] /\
  ~ (exists e, parse_orca_output Examples.decimal_float Texts.wide_rows
               = inl e).
Proof.
  split; [reflexivity|]. split; [reflexivity|].
  split; [exact wide_rows_parsed|].
  intros [e He]. rewrite wide_rows_parsed in He. discriminate He.
Qed.

(** A block cut after its second row is refused. *)
Lemma truncated_block_fails :
  exists e,
    parse_orca_output Examples.decimal_float Texts.truncated = inl e /\
    parse_error e.
Proof.
  apply (truncated_or_non_numeric_block_fails
           Examples.decimal_float Texts.truncated 1
           (nth 1 Texts.truncated EmptyString));
    [reflexivity|reflexivity|left; simpl; lia].
Defined.

(** A block ahead of the first temperature line is filed under [None]. *)
Lemma untimed_block_keyed_none :
  exists m m',
    read_tensor Examples.decimal_float Texts.untimed 0 = inr m /\
    In None (Dict.keys ([(None, mat3 1 0 0 0 2 0 0 0 3)] : tensor_dict)) /\
    tensors_get None [(None, mat3 1 0 0 0 2 0 0 0 3)] = Some m' /\
    m' = m.
Proof.
  destruct (block_before_temperature_keyed_none
              Examples.decimal_float []
              (hd EmptyString Texts.untimed) (tl Texts.untimed)
              [(None, mat3 1 0 0 0 2 0 0 0 3)]
              (fun l (H : In l []) => match H with end)
              eq_refl eq_refl untimed_parsed)
    as (m & m' & Hm & _ & Hin & Hget & Hsame).
  exists m, m'. repeat split; try assumption. apply Hsame. reflexivity.
Defined.

(** Two blocks under 50 K, then 60 K without block: one entry, for 50 K,
    holding the second block. *)
Lemma two_blocks_last_wins :
  tensors_get (Some 50) [(Some 50, mat3 4 0 0 0 5 0 0 0 6)]
  = Some (mat3 4 0 0 0 5 0 0 0 6) /\
  NoDup (Dict.keys [(Some 50, mat3 4 0 0 0 5 0 0 0 6)]) /\
  ~ In (Some 60) (Dict.keys [(Some 50, mat3 4 0 0 0 5 0 0 0 6)]).
Proof.
  destruct (last_block_wins Examples.decimal_float Texts.two_blocks
                            [(Some 50, mat3 4 0 0 0 5 0 0 0 6)]
                            two_blocks_parsed)
    as (bs & Hbs & Hnodup & Hkeys & _ & Hlast).
  rewrite two_blocks_blocks in Hbs. inversion Hbs; subst bs; clear Hbs.
  split; [|split; [exact Hnodup|]].
  - apply (Hlast [] (Some 50) (mat3 1 0 0 0 2 0 0 0 3)
                 (mat3 4 0 0 0 5 0 0 0 6) []); [reflexivity|intros []].
  - intro Hin. apply Hkeys in Hin. simpl in Hin.
    destruct Hin as [E|[E|[]]]; inversion E; lra.
Defined.

(** Scenario A processed with the bounds 0 and 100 gives one record, at
    50 K. *)
Lemma scenario_A_within_range :
  exists r,
    process_orca_file Examples.decimal_float Examples.diagonal_eigh
                      Texts.scenario_A 0 100 = inr [r] /\
    exists T, r_temp r = Some T /\ 0 <= T <= 100.
Proof.
  destruct scenario_A_processed as (r & E & _).
  exists r. split; [exact E|].
  apply (process_within_range Examples.decimal_float Examples.diagonal_eigh
                              Texts.scenario_A 0 100 [r] E r).
  now left.
Defined.

(** The round trip at 50 K. *)
Lemma convert_roundtrip_at_50 :
  exists factor converted,
    factor = (4 * PI * 1e24) / (6.02214129e23 * 50) /\
    convert_chi_tensor (mat3 1 0 0 0 2 0 0 0 3) (Some 50) = inr converted /\
    converted = Np.scale (mat3 1 0 0 0 2 0 0 0 3) factor /\
    Np.unscale converted factor = mat3 1 0 0 0 2 0 0 0 3.
Proof.
  apply (convert_roundtrip (mat3 1 0 0 0 2 0 0 0 3) 50). lra.
Defined.

(** The tensor diag(1, 2, 3): the eigenvalues -1, 0, 1 of its traceless part
    come back in the order 0, -1, 1. *)
Lemma eigenvalues_mehring_order_example :
  exists dec,
    calculate_eigenvalues Examples.diagonal_eigh (mat3 1 0 0 0 2 0 0 0 3)
    = inr dec /\
    eigvals dec = [0; -1; 1] /\
    is_spectrum (traceless_tensor dec) (0, -1, 1).
Proof.
  destruct (eigenvalues_mehring_order
              Examples.diagonal_eigh 1 0 0 0 2 0 0 0 3)
    as (dec & w0 & w1 & w2 & l0 & l1 & l2 & Hc & _ & Ew & El & _ & _ & Sp).
  rewrite diagonal_example in Hc. inversion Hc; subst dec; clear Hc.
  eexists. split; [exact diagonal_example|]. split; [reflexivity|].
  inversion El; subst l0 l1 l2. apply Sp. rewrite <- Ew.
  exact diagonal_example_spectrum.
Defined.

(** The tensor diag(1, 1, 4) is degenerate: both rhombicities vanish. *)
Lemma degenerate_rhombicity_zero_example :
  let dec := decomposition_of (mat3 (-1) 0 0 0 (-1) 0 0 0 2) (-1) (-1) 2 6 in
  calculate_eigenvalues Examples.diagonal_eigh (mat3 1 0 0 0 1 0 0 0 4)
  = inr dec /\
  rh_method1 dec = 0 /\ rh_method2 dec = 0.
Proof.
  intro dec. split; [exact degenerate_example|].
  destruct (degenerate_rhombicity_zero
              Examples.diagonal_eigh (mat3 1 0 0 0 1 0 0 0 4) dec
              (-1) (-1) 2 degenerate_example eq_refl eq_refl)
    as (_ & Hrh1 & _ & Hrh2).
  split; assumption.
Defined.

(** The tensor diag(1, 2, 3): both axialities are 1.5. *)
Lemma axiality_conventions_agree_example :
  let dec := decomposition_of (mat3 (-1) 0 0 0 0 0 0 0 1) 0 (-1) 1 6 in
  calculate_eigenvalues Examples.diagonal_eigh (mat3 1 0 0 0 2 0 0 0 3)
  = inr dec /\
  rh_method2 dec = 2 * rh_method1 dec /\
  ax_method1 dec = ax_method2 dec.
Proof.
  intro dec. split; [exact diagonal_example|].
  destruct (axiality_conventions_agree
              Examples.diagonal_eigh 1 0 0 0 2 0 0 0 3 dec diagonal_example)
    as (l0 & l1 & l2 & _ & _ & _ & Hrh & Hax).
  split; [exact Hrh|]. apply Hax. exact diagonal_example_spectrum.
Defined.
